(** * Healthcare notification system: a shallow embedding and its properties

    The program under study is [healthcare-notification-system.py]: a
    [NotificationCenter] that owns a list of [Notification] objects and an
    identifier counter, and a [HealthcareProviderSystem] that wraps one
    center behind a login check.

    Python objects are mutable and shared by reference: the center's list
    and the values its methods return point to the same [Notification]
    objects.  The embedding therefore has an explicit object heap; a
    notification value is an address in that heap, and the methods are
    computations in a state monad over the heap, the system object and the
    console. *)

From stdpp Require Import base option list strings.
From Stdlib Require Import ZArith Lia.

(** ** Data model *)

(** [datetime.datetime] values are opaque to the program: it stores them
    and prints them.  A reading of the clock is an integer here. *)
Definition datetime : Type := Z.

(** [class Notification] *)
Record Notification : Type := mkNotification {
  notification_id : Z;
  title : string;
  content : string;
  timestamp : datetime;
  is_read : bool
}.

(** [Notification.__init__]: the read flag starts at [False]. *)
Definition Notification__init__
    (notification_id : Z) (title content : string) (timestamp : datetime)
  : Notification :=
  {| notification_id := notification_id;
     title := title;
     content := content;
     timestamp := timestamp;
     is_read := false |}.

(** [notification.is_read = b] on a record value. *)
Definition with_is_read (b : bool) (n : Notification) : Notification :=
  {| notification_id := notification_id n;
     title := title n;
     content := content n;
     timestamp := timestamp n;
     is_read := b |}.

(** A reference to a [Notification] object: its address in the heap. *)
Abbreviation ref := nat.

(** The heap of [Notification] objects; the address of an object is its
    position.  Objects are never freed. *)
Abbreviation Heap := (list Notification).

(** [class NotificationCenter]: [_notifications] is a list of references. *)
Record NotificationCenter : Type := mkNotificationCenter {
  _notifications : list ref;
  _next_id : Z
}.

(** [NotificationCenter.__init__] *)
Definition NotificationCenter__init__ : NotificationCenter :=
  {| _notifications := []; _next_id := 1 |}.

(** [class HealthcareProviderSystem]; [current_user] is [None] or a string. *)
Record HealthcareProviderSystem : Type := mkHealthcareProviderSystem {
  notification_center : NotificationCenter;
  current_user : option string
}.

(** [HealthcareProviderSystem.__init__] *)
Definition HealthcareProviderSystem__init__ : HealthcareProviderSystem :=
  {| notification_center := NotificationCenter__init__;
     current_user := None |}.

(** The lines the program prints, one constructor per [print] call of the
    source, carrying the values that the f-string interpolates. *)
Inductive Output : Type :=
  | print_logged_in (username : string)
      (* User {username} logged in successfully. *)
  | print_please_log_in
      (* Please log in first. *)
  | print_found (count : nat)
      (* Found {len(unread_notifications)} unread notifications. *)
  | print_viewing (notification_id : Z)
      (* Viewing Notification {notification_id}: *)
  | print_title (title : string)
  | print_content (content : string)
  | print_timestamp (timestamp : datetime)
  | print_marked_read
      (* Notification marked as read. *)
  | print_not_found (notification_id : Z).
      (* No notification found with ID {notification_id} *)

(** The whole program state: the object heap, the system object (which
    owns its center, which owns its list) and what was printed so far. *)
Record State : Type := mkState {
  heap : Heap;
  system : HealthcareProviderSystem;
  console : list Output
}.

Definition center (s : State) : NotificationCenter :=
  notification_center (system s).

(** The references held by the store, in list order. *)
Definition stored (s : State) : list ref := _notifications (center s).

(** ** The state monad

    A computation may get stuck ([None]) only by dereferencing an address
    that is not in the heap, which a Python program cannot do. *)

Definition M (A : Type) : Type := State → option (A * State).

Definition M_ret {A} (a : A) : M A := λ s, Some (a, s).

Definition M_bind {A B} (f : A → M B) (m : M A) : M B :=
  λ s, match m s with
       | Some (a, s') => f a s'
       | None => None
       end.

#[export] Instance M_mret : MRet M := @M_ret.
#[export] Instance M_mbind : MBind M := @M_bind.
#[export] Instance M_fmap : FMap M :=
  λ A B (f : A → B) (m : M A), M_bind (λ a, M_ret (f a)) m.

(** Reading and writing the fields of [self]. *)
Definition get_notifications : M (list ref) :=
  λ s, Some (_notifications (center s), s).

Definition get_next_id : M Z :=
  λ s, Some (_next_id (center s), s).

Definition set_center (c : NotificationCenter) : M unit :=
  λ s, Some (tt, {| heap := heap s;
                    system := {| notification_center := c;
                                 current_user := current_user (system s) |};
                    console := console s |}).

(** [self._notifications.append(r)] *)
Definition notifications_append (r : ref) : M unit :=
  λ s, set_center {| _notifications := _notifications (center s) ++ [r];
                     _next_id := _next_id (center s) |} s.

(** [self._next_id += 1] *)
Definition next_id_increment : M unit :=
  λ s, set_center {| _notifications := _notifications (center s);
                     _next_id := (_next_id (center s) + 1)%Z |} s.

Definition get_current_user : M (option string) :=
  λ s, Some (current_user (system s), s).

(** [self.current_user = username] *)
Definition set_current_user (username : string) : M unit :=
  λ s, Some (tt, {| heap := heap s;
                    system := {| notification_center := center s;
                                 current_user := Some username |};
                    console := console s |}).

(** Object creation: the new object gets the next free address. *)
Definition new (n : Notification) : M ref :=
  λ s, Some (length (heap s),
             {| heap := heap s ++ [n];
                system := system s;
                console := console s |}).

(** Attribute reads of the object at [r]. *)
Definition load (r : ref) : M Notification :=
  λ s, match heap s !! r with
       | Some n => Some (n, s)
       | None => None
       end.

(** [r.is_read = b]: an update in place of the object at [r]. *)
Definition store_is_read (r : ref) (b : bool) : M unit :=
  λ s, match heap s !! r with
       | Some n => Some (tt, {| heap := <[r := with_is_read b n]> (heap s);
                                system := system s;
                                console := console s |})
       | None => None
       end.

Definition print (o : Output) : M unit :=
  λ s, Some (tt, {| heap := heap s;
                    system := system s;
                    console := console s ++ [o] |}).

(** Truth value of a [str]: the empty string is false. *)
Definition truthy (x : string) : bool :=
  match x with
  | EmptyString => false
  | String _ _ => true
  end.

(** Truth value of [self.current_user]: [None] and [""] are false. *)
Definition truthy_user (u : option string) : bool :=
  match u with
  | Some x => truthy x
  | None => false
  end.

(** ** NotificationCenter *)

(** [add_notification]; [now] is what [datetime.datetime.now()] returns
    during the call. *)
Definition add_notification (now : datetime) (title content : string)
  : M ref :=
  next_id ← get_next_id;
  new_notification ← new (Notification__init__ next_id title content now);
  notifications_append new_notification;;
  next_id_increment;;
  mret new_notification.

(** The list comprehension of [get_unread_notifications] over the
    remaining elements: a fresh list of the references whose object has
    [is_read] false. *)
Fixpoint unread_of (notifications : list ref) : M (list ref) :=
  match notifications with
  | [] => mret []
  | notification :: rest =>
      n ← load notification;
      tl ← unread_of rest;
      mret (if is_read n then tl else notification :: tl)
  end.

Definition get_unread_notifications : M (list ref) :=
  notifications ← get_notifications;
  unread_of notifications.

(** The [for] loop of [get_notification_by_id] over the remaining
    elements, with its early [return]. *)
Fixpoint scan_for (notification_id' : Z) (notifications : list ref)
  : M (option ref) :=
  match notifications with
  | [] => mret None
  | notification :: rest =>
      n ← load notification;
      if (notification_id n =? notification_id')%Z
      then mret (Some notification)
      else scan_for notification_id' rest
  end.

Definition get_notification_by_id (notification_id : Z) : M (option ref) :=
  notifications ← get_notifications;
  scan_for notification_id notifications.

(** ** HealthcareProviderSystem *)

Definition login (username password : string) : M bool :=
  if truthy username && truthy password then
    set_current_user username;;
    print (print_logged_in username);;
    mret true
  else mret false.

Definition check_notifications : M (list ref) :=
  user ← get_current_user;
  if negb (truthy_user user) then
    print print_please_log_in;;
    mret []
  else
    unread_notifications ← get_unread_notifications;
    print (print_found (length unread_notifications));;
    mret unread_notifications.

Definition view_notification (notification_id : Z) : M (option ref) :=
  user ← get_current_user;
  if negb (truthy_user user) then
    print print_please_log_in;;
    mret None
  else
    found ← get_notification_by_id notification_id;
    match found with
    | Some notification =>
        n ← load notification;
        print (print_viewing notification_id);;
        print (print_title (title n));;
        print (print_content (content n));;
        print (print_timestamp (timestamp n));;
        store_is_read notification true;;
        print print_marked_read;;
        mret (Some notification)
    | None =>
        print (print_not_found notification_id);;
        mret None
    end.

(** ** The public interface as a transition system *)

(** One call of the public interface, with its arguments (and, for
    [add_notification], the clock reading it will observe). *)
Inductive Call : Type :=
  | call_add_notification (now : datetime) (title content : string)
  | call_get_unread_notifications
  | call_get_notification_by_id (notification_id : Z)
  | call_login (username password : string)
  | call_check_notifications
  | call_view_notification (notification_id : Z).

(** What a call returns. *)
Inductive Value : Type :=
  | value_notification (r : ref)
  | value_optional (r : option ref)
  | value_list (l : list ref)
  | value_bool (b : bool).

Definition perform (c : Call) : M Value :=
  match c with
  | call_add_notification now title content =>
      value_notification <$> add_notification now title content
  | call_get_unread_notifications =>
      value_list <$> get_unread_notifications
  | call_get_notification_by_id notification_id =>
      value_optional <$> get_notification_by_id notification_id
  | call_login username password =>
      value_bool <$> login username password
  | call_check_notifications =>
      value_list <$> check_notifications
  | call_view_notification notification_id =>
      value_optional <$> view_notification notification_id
  end.

(** A program: calls performed one after the other, results collected. *)
Fixpoint run (cs : list Call) : M (list Value) :=
  match cs with
  | [] => mret []
  | c :: cs' =>
      v ← perform c;
      vs ← run cs';
      mret (v :: vs)
  end.

(** The state right after [HealthcareProviderSystem()]. *)
Definition initial : State :=
  {| heap := []; system := HealthcareProviderSystem__init__; console := [] |}.

(** The states the public interface can produce from [initial]. *)
Definition reachable (s : State) : Prop :=
  ∃ cs vs, run cs initial = Some (vs, s).

(** The references returned by the [add_notification] calls of a run. *)
Fixpoint created (cs : list Call) (vs : list Value) : list ref :=
  match cs, vs with
  | call_add_notification _ _ _ :: cs', value_notification r :: vs' =>
      r :: created cs' vs'
  | _ :: cs', _ :: vs' => created cs' vs'
  | _, _ => []
  end.

Definition is_add (c : Call) : bool :=
  match c with
  | call_add_notification _ _ _ => true
  | _ => false
  end.

(** The number of [add_notification] calls in a program. *)
Definition creations (cs : list Call) : nat := length (List.filter is_add cs).

(** ** Observations of a state *)

(** The identifier and the read flag of the object at [r]. *)
Definition id_at (h : Heap) (r : ref) : option Z := notification_id <$> h !! r.
Definition read_at (h : Heap) (r : ref) : option bool := is_read <$> h !! r.

(** Every reference the store holds points to an object: true of every
    state of a Python program. *)
Definition heap_closed (s : State) : Prop :=
  Forall (λ r, r < length (heap s)) (stored s).

(** The condition both guarded methods test. *)
Definition logged_in (s : State) : bool := truthy_user (current_user (system s)).

(** The counter is one more than the number of stored notifications and
    the [i]-th stored notification (from 1) has identifier [i]. *)
Definition counter_inv (s : State) : Prop :=
  _next_id (center s) = (Z.of_nat (length (stored s)) + 1)%Z ∧
  ∀ i r, stored s !! i = Some r → id_at (heap s) r = Some (Z.of_nat i + 1)%Z.

(** The objects of [h] are still there in [h'], with the same identifier,
    title, content and timestamp, and a read flag that did not go back
    from true to false. *)
Definition evolves (h h' : Heap) : Prop :=
  ∀ r n, h !! r = Some n →
    ∃ n', h' !! r = Some n' ∧
          notification_id n' = notification_id n ∧
          title n' = title n ∧
          content n' = content n ∧
          timestamp n' = timestamp n ∧
          (is_read n = true → is_read n' = true).

(** The first reference of [l] whose object has identifier [id]. *)
Definition first_with_id (h : Heap) (id : Z) (l : list ref) : option ref :=
  head (filter (λ r, id_at h r = Some id) l).

(** The references of [l] whose object is unread, in the order of [l]. *)
Definition unread_in (h : Heap) (l : list ref) : list ref :=
  filter (λ r, read_at h r = Some false) l.

(** [current_user] is [None] or a non-empty string. *)
Definition user_ok (s : State) : Prop :=
  current_user (system s) = None ∨
  ∃ u, truthy u = true ∧ current_user (system s) = Some u.

(** ** One call of the interface, as a relation between states *)

(** Every call either creates one object, appends it and bumps the
    counter, or leaves the center alone and at most sets one read flag. *)
Definition creates (c : Call) (v : Value) (s s' : State) : Prop :=
  ∃ now t x,
    c = call_add_notification now t x ∧
    v = value_notification (length (heap s)) ∧
    heap s' = heap s ++ [Notification__init__ (_next_id (center s)) t x now] ∧
    center s' =
      {| _notifications := stored s ++ [length (heap s)];
         _next_id := (_next_id (center s) + 1)%Z |} ∧
    current_user (system s') = current_user (system s).

Definition keeps_or_marks (c : Call) (s s' : State) : Prop :=
  is_add c = false ∧
  center s' = center s ∧
  (heap s' = heap s ∨
   ∃ r n, heap s !! r = Some n ∧ heap s' = <[r := with_is_read true n]> (heap s)) ∧
  (current_user (system s') = current_user (system s) ∨
   ∃ u, truthy u = true ∧ current_user (system s') = Some u).

Definition step (c : Call) (v : Value) (s s' : State) : Prop :=
  creates c v s s' ∨ keeps_or_marks c s s'.

(** ** The scenario of [main] and of the design document *)

Definition scenario : list Call :=
  [ call_add_notification 100%Z "Patient Follow-up" "follow-up";
    call_add_notification 101%Z "Urgent: Medication Update" "review";
    call_login "dr.smith" "secure_password";
    call_check_notifications;
    call_view_notification 1%Z;
    call_check_notifications ].

(** The state a program ends in. *)
Definition after (cs : list Call) : State :=
  match run cs initial with
  | Some (_, s) => s
  | None => initial
  end.

(** Two notifications, the first one read, a user logged in. *)
Definition sample : State := after scenario.

(** Two notifications, nobody logged in. *)
Definition sample_logged_out : State :=
  after [ call_add_notification 100%Z "Patient Follow-up" "follow-up";
          call_add_notification 101%Z "Urgent: Medication Update" "review" ].

(** ** The example program

    [main] builds its own system object, so whatever system the state
    held before is replaced; the heap and the console are the process's
    and stay.  [t1] and [t2] are the clock readings of the two
    [add_notification] calls. *)

(** [system = HealthcareProviderSystem()] *)
Definition new_system : M unit :=
  λ s, Some (tt, {| heap := heap s;
                    system := HealthcareProviderSystem__init__;
                    console := console s |}).

Definition main (t1 t2 : datetime) : M unit :=
  new_system;;
  login "dr.smith" "secure_password";;
  add_notification t1
    "Patient Follow-up"
    "Patient John Doe requires a follow-up consultation for recent test results.";;
  add_notification t2
    "Urgent: Medication Update"
    "Immediate review needed for patient medications due to potential interactions.";;
  unread_notifications ← check_notifications;
  match unread_notifications with
  | first :: _ =>
      n ← load first;
      view_notification (notification_id n);;
      mret tt
  | [] => mret tt
  end.

(** A call of [login] with two non-empty strings: the only call that can
    set [current_user]. *)
Definition grants (c : Call) : bool :=
  match c with
  | call_login username password => truthy username && truthy password
  | _ => false
  end.

(** A store whose two notifications carry the same identifier; the
    interface never builds one, assignments to the fields can. *)
Definition sample_same_id : State :=
  {| heap := [ mkNotification 5 "first" "" 0%Z false;
               mkNotification 5 "second" "" 1%Z false ];
     system := {| notification_center :=
                    {| _notifications := [0; 1]; _next_id := 1 |};
                  current_user := Some "dr.smith" |};
     console := [] |}.

Example scenario_results :
  fst <$> run scenario initial =
  Some [ value_notification 0; value_notification 1; value_bool true;
         value_list [0; 1]; value_optional (Some 0); value_list [1] ].
Proof. reflexivity. Qed.

Example scenario_heap :
  (heap ∘ snd) <$> run scenario initial =
  Some [ mkNotification 1%Z "Patient Follow-up" "follow-up" 100%Z true;
         mkNotification 2%Z "Urgent: Medication Update" "review" 101%Z false ].
Proof. reflexivity. Qed.

Example logged_out_sample :
  fst <$> check_notifications sample_logged_out = Some [] ∧
  fst <$> view_notification 1 sample_logged_out = Some None ∧
  fst <$> get_unread_notifications sample_logged_out = Some [0; 1].
Proof. by vm_compute. Qed.

Example logged_out_check :
  fst <$> run [ call_add_notification 7%Z "t" "c"; call_check_notifications;
                call_view_notification 1%Z; call_login "" "x";
                call_login "x" ""; call_check_notifications ] initial =
  Some [ value_notification 0; value_list []; value_optional None;
         value_bool false; value_bool false; value_list [] ].
Proof. reflexivity. Qed.

(** ** What each method computes *)

Ltac unfold_monad :=
  unfold mbind, mret, fmap, M_mbind, M_mret, M_fmap, M_bind, M_ret in *.

Lemma valid_ref_lookup (h : Heap) (r : ref) :
  r < length h → ∃ n, h !! r = Some n.
Proof. intros Hr. by apply lookup_lt_is_Some_2. Qed.

Lemma add_notification_effect now t c s :
  add_notification now t c s =
  Some (length (heap s),
        {| heap := heap s ++ [Notification__init__ (_next_id (center s)) t c now];
           system :=
             {| notification_center :=
                  {| _notifications := stored s ++ [length (heap s)];
                     _next_id := (_next_id (center s) + 1)%Z |};
                current_user := current_user (system s) |};
           console := console s |}).
Proof. reflexivity. Qed.

Lemma unread_of_effect l s :
  Forall (λ r, r < length (heap s)) l →
  unread_of l s = Some (unread_in (heap s) l, s).
Proof.
  unfold unread_in. induction 1 as [|r l Hr _ IH]; [done|].
  destruct (valid_ref_lookup _ _ Hr) as [n Hn].
  cbn [unread_of]. unfold_monad. unfold load. rewrite Hn, IH.
  destruct (is_read n) eqn:Hread.
  - rewrite filter_cons_False; [done|].
    unfold read_at. rewrite Hn. cbn. congruence.
  - rewrite filter_cons_True; [done|].
    unfold read_at. rewrite Hn. cbn. congruence.
Qed.

Lemma get_unread_notifications_effect s :
  heap_closed s →
  get_unread_notifications s = Some (unread_in (heap s) (stored s), s).
Proof. intros Hs. apply (unread_of_effect _ _ Hs). Qed.

Lemma scan_for_effect id l s :
  Forall (λ r, r < length (heap s)) l →
  scan_for id l s = Some (first_with_id (heap s) id l, s).
Proof.
  unfold first_with_id. induction 1 as [|r l Hr _ IH]; [done|].
  destruct (valid_ref_lookup _ _ Hr) as [n Hn].
  cbn [scan_for]. unfold_monad. unfold load. rewrite Hn.
  destruct (Z.eqb_spec (notification_id n) id) as [Hid|Hid].
  - rewrite filter_cons_True; [done|].
    unfold id_at. rewrite Hn. cbn. congruence.
  - rewrite filter_cons_False; [done|].
    unfold id_at. rewrite Hn. cbn. congruence.
Qed.

Lemma get_notification_by_id_effect id s :
  heap_closed s →
  get_notification_by_id id s = Some (first_with_id (heap s) id (stored s), s).
Proof. intros Hs. apply (scan_for_effect _ _ _ Hs). Qed.

(** [first_with_id] finds a stored object with the identifier, the first
    one in list order, exactly when there is one. *)
Lemma first_with_id_Some h id l r :
  first_with_id h id l = Some r →
  ∃ i, l !! i = Some r ∧ id_at h r = Some id ∧
       ∀ j r', j < i → l !! j = Some r' → id_at h r' ≠ Some id.
Proof.
  unfold first_with_id. induction l as [|x l IH]; [done|].
  destruct (decide (id_at h x = Some id)) as [Hx|Hx].
  - rewrite filter_cons_True by done. intros [= ->].
    exists 0. split_and!; [done|done|]. intros j r' Hj. lia.
  - rewrite filter_cons_False by done. intros Hr.
    destruct (IH Hr) as (i & Hi & Hid & Hfirst).
    exists (S i). split_and!; [done|done|].
    intros [|j] r' Hj Hr'; [by injection Hr' as ->|].
    apply (Hfirst j); [lia|done].
Qed.

Lemma first_with_id_None h id l :
  first_with_id h id l = None ↔ ∀ r, r ∈ l → id_at h r ≠ Some id.
Proof.
  unfold first_with_id. rewrite head_None. split.
  - intros Hnil r Hr Hid.
    assert (r ∈ filter (λ r, id_at h r = Some id) l) as Hin
      by by apply list_elem_of_filter.
    rewrite Hnil in Hin. by apply not_elem_of_nil in Hin.
  - intros Hnone. induction l as [|x l IH]; [done|].
    rewrite filter_cons_False; [|apply Hnone; left].
    apply IH. intros r Hr. apply Hnone. by right.
Qed.

Lemma first_with_id_is_Some h id l r :
  r ∈ l → id_at h r = Some id → is_Some (first_with_id h id l).
Proof.
  intros Hr Hid. destruct (first_with_id h id l) eqn:Hfirst; [by eexists|].
  by destruct (proj1 (first_with_id_None _ _ _) Hfirst r Hr).
Qed.

Lemma login_effect username password s :
  login username password s =
  if truthy username && truthy password
  then Some (true,
             {| heap := heap s;
                system := {| notification_center := center s;
                             current_user := Some username |};
                console := console s ++ [print_logged_in username] |})
  else Some (false, s).
Proof. unfold login. by destruct (truthy username && truthy password). Qed.

Lemma check_notifications_logged_out s :
  logged_in s = false →
  check_notifications s =
  Some ([], {| heap := heap s; system := system s;
               console := console s ++ [print_please_log_in] |}).
Proof.
  unfold logged_in, check_notifications. unfold_monad.
  unfold get_current_user. by intros ->.
Qed.

Lemma check_notifications_logged_in s :
  logged_in s = true → heap_closed s →
  check_notifications s =
  Some (unread_in (heap s) (stored s),
        {| heap := heap s; system := system s;
           console := console s ++
             [print_found (length (unread_in (heap s) (stored s)))] |}).
Proof.
  unfold logged_in, check_notifications. unfold_monad.
  unfold get_current_user. intros -> Hs. cbn.
  by rewrite (get_unread_notifications_effect _ Hs).
Qed.

Lemma view_notification_logged_out id s :
  logged_in s = false →
  view_notification id s =
  Some (None, {| heap := heap s; system := system s;
                 console := console s ++ [print_please_log_in] |}).
Proof.
  unfold logged_in, view_notification. unfold_monad.
  unfold get_current_user. by intros ->.
Qed.

Lemma view_notification_not_found id s :
  logged_in s = true → heap_closed s →
  first_with_id (heap s) id (stored s) = None →
  view_notification id s =
  Some (None, {| heap := heap s; system := system s;
                 console := console s ++ [print_not_found id] |}).
Proof.
  unfold logged_in, view_notification. unfold_monad.
  unfold get_current_user. intros -> Hs Hnone. cbn.
  by rewrite (get_notification_by_id_effect _ _ Hs), Hnone.
Qed.

Lemma view_notification_found id s r n :
  logged_in s = true → heap_closed s →
  first_with_id (heap s) id (stored s) = Some r →
  heap s !! r = Some n →
  view_notification id s =
  Some (Some r,
        {| heap := <[r := with_is_read true n]> (heap s);
           system := system s;
           console := console s ++
             [print_viewing id; print_title (title n);
              print_content (content n); print_timestamp (timestamp n);
              print_marked_read] |}).
Proof.
  unfold logged_in, view_notification. unfold_monad.
  unfold get_current_user. intros -> Hs Hfound Hn. cbn.
  rewrite (get_notification_by_id_effect _ _ Hs), Hfound.
  unfold load, print, store_is_read. cbn. rewrite Hn. cbn. rewrite Hn.
  cbn. by rewrite <- !app_assoc.
Qed.

(** In a closed state the reference [get_notification_by_id] finds
    points to an object. *)
Lemma first_with_id_lookup id s r :
  first_with_id (heap s) id (stored s) = Some r →
  ∃ n, heap s !! r = Some n ∧ notification_id n = id ∧ r ∈ stored s.
Proof.
  intros Hfound.
  destruct (first_with_id_Some _ _ _ _ Hfound) as (i & Hi & Hid & _).
  unfold id_at in Hid. destruct (heap s !! r) as [n|] eqn:Hn; [|done].
  exists n. split_and!.
  - done.
  - cbn in Hid. congruence.
  - apply list_elem_of_lookup. by exists i.
Qed.

(** ** Every call of the interface is a step *)

Lemma perform_cases c s :
  heap_closed s →
  ∃ v s', perform c s = Some (v, s') ∧
          (creates c v s s' ∨ keeps_or_marks c s s').
Proof.
  intros Hs.
  destruct c as [now t x| |id|u p| |id]; cbn [perform];
    unfold fmap, M_fmap, M_bind, M_ret.
  - rewrite add_notification_effect.
    eexists _, _. split; [done|]. left. by exists now, t, x.
  - rewrite (get_unread_notifications_effect _ Hs).
    eexists _, _. split; [done|]. right. split_and!; auto.
  - rewrite (get_notification_by_id_effect _ _ Hs).
    eexists _, _. split; [done|]. right. split_and!; auto.
  - rewrite login_effect.
    destruct (truthy u) eqn:Hu, (truthy p); cbn;
      (eexists _, _; split; [done|]; right; split_and!; eauto).
  - destruct (logged_in s) eqn:Hin.
    + rewrite (check_notifications_logged_in _ Hin Hs).
      eexists _, _. split; [done|]. right. split_and!; auto.
    + rewrite (check_notifications_logged_out _ Hin).
      eexists _, _. split; [done|]. right. split_and!; auto.
  - destruct (logged_in s) eqn:Hin.
    + destruct (first_with_id (heap s) id (stored s)) as [r|] eqn:Hfound.
      * destruct (first_with_id_lookup _ _ _ Hfound) as (n & Hn & _).
        rewrite (view_notification_found _ _ _ _ Hin Hs Hfound Hn).
        eexists _, _. split; [done|]. right. split_and!; auto.
        right. by exists r, n.
      * rewrite (view_notification_not_found _ _ Hin Hs Hfound).
        eexists _, _. split; [done|]. right. split_and!; auto.
    + rewrite (view_notification_logged_out _ _ Hin).
      eexists _, _. split; [done|]. right. split_and!; auto.
Qed.

Lemma evolves_refl h : evolves h h.
Proof. intros r n Hn. exists n. by split_and!. Qed.

Lemma evolves_trans h1 h2 h3 : evolves h1 h2 → evolves h2 h3 → evolves h1 h3.
Proof.
  intros H12 H23 r n Hn.
  destruct (H12 r n Hn) as (n2 & Hn2 & Hid2 & Ht2 & Hc2 & Hts2 & Hread2).
  destruct (H23 r n2 Hn2) as (n3 & Hn3 & Hid3 & Ht3 & Hc3 & Hts3 & Hread3).
  exists n3. split_and!; [done|congruence..|auto].
Qed.

Lemma evolves_alloc h n : evolves h (h ++ [n]).
Proof.
  intros r x Hx. exists x. split_and!; try done. by apply lookup_app_l_Some.
Qed.

Lemma evolves_mark (h : Heap) r n :
  h !! r = Some n → evolves h (<[r := with_is_read true n]> h).
Proof.
  intros Hn r' x Hx. destruct (decide (r = r')) as [<-|Hne].
  - exists (with_is_read true n). rewrite Hn in Hx. injection Hx as <-.
    split_and!; try done.
    apply list_lookup_insert_eq. by eapply lookup_lt_Some.
  - exists x. split_and!; try done. by rewrite list_lookup_insert_ne.
Qed.

Lemma evolves_length h h' : evolves h h' → length h ≤ length h'.
Proof.
  intros Hev. destruct (decide (length h = 0)) as [->|Hne]; [lia|].
  destruct (valid_ref_lookup h (length h - 1)) as [n Hn]; [lia|].
  destruct (Hev _ _ Hn) as (n' & Hn' & _).
  apply lookup_lt_Some in Hn'. lia.
Qed.

Lemma evolves_id_at h h' r k : evolves h h' → id_at h r = Some k → id_at h' r = Some k.
Proof.
  unfold id_at. intros Hev Hid.
  destruct (h !! r) as [n|] eqn:Hn; [|done].
  destruct (Hev _ _ Hn) as (n' & -> & Hid' & _). cbn in *. congruence.
Qed.

Lemma evolves_read_at h h' r :
  evolves h h' → read_at h r = Some true → read_at h' r = Some true.
Proof.
  unfold read_at. intros Hev Hread.
  destruct (h !! r) as [n|] eqn:Hn; [|done].
  destruct (Hev _ _ Hn) as (n' & -> & _ & _ & _ & _ & Hkeep).
  cbn in *. f_equal. apply Hkeep. congruence.
Qed.

Lemma step_evolves c v s s' : step c v s s' → evolves (heap s) (heap s').
Proof.
  intros [(now & t & x & _ & _ & -> & _)|(_ & _ & [->|(r & n & Hn & ->)] & _)].
  - apply evolves_alloc.
  - apply evolves_refl.
  - by apply evolves_mark.
Qed.

Lemma step_stored c v s s' :
  step c v s s' → stored s' = stored s ++ created [c] [v].
Proof.
  unfold stored.
  intros [(now & t & x & -> & -> & _ & -> & _)|(Hc & -> & _)]; [done|].
  destruct c, v; try discriminate; by rewrite app_nil_r.
Qed.

Lemma step_created c v s s' :
  step c v s s' → length (created [c] [v]) = creations [c].
Proof.
  intros [(now & t & x & -> & -> & _)|(Hc & _)]; [done|].
  destruct c, v; try discriminate; done.
Qed.

Lemma step_heap_closed c v s s' : step c v s s' → heap_closed s → heap_closed s'.
Proof.
  intros Hstep Hs. unfold heap_closed.
  rewrite (step_stored _ _ _ _ Hstep).
  pose proof (evolves_length _ _ (step_evolves _ _ _ _ Hstep)) as Hlen.
  apply Forall_app. split.
  - eapply Forall_impl; [exact Hs|]. cbn. intros r Hr. lia.
  - destruct Hstep as [(now & t & x & -> & -> & -> & _)|(Hc & _)].
    + cbn. repeat constructor. rewrite length_app. cbn. lia.
    + destruct c, v; try discriminate; constructor.
Qed.

Lemma counter_inv_heap_closed s : counter_inv s → heap_closed s.
Proof.
  intros [_ Hids]. apply Forall_lookup. intros i r Hr.
  specialize (Hids i r Hr). unfold id_at in Hids.
  destruct (heap s !! r) as [n|] eqn:Hn; [|done]. by eapply lookup_lt_Some.
Qed.

Lemma step_counter_inv c v s s' : step c v s s' → counter_inv s → counter_inv s'.
Proof.
  intros Hstep [Hnext Hids].
  pose proof (step_evolves _ _ _ _ Hstep) as Hev.
  destruct Hstep as [(now & t & x & -> & -> & Hheap & Hcenter & _)|(Hc & Hcenter & _)].
  - unfold counter_inv, stored. rewrite Hcenter. cbn. split.
    + rewrite length_app, Hnext. cbn [length]. lia.
    + intros i r Hr. apply lookup_app_Some in Hr as [Hr|[Hi Hr]].
      * eapply evolves_id_at; [done|]. by apply Hids.
      * apply list_lookup_singleton_Some in Hr as [Hi0 <-].
        unfold id_at. rewrite Hheap.
        rewrite lookup_app_r, Nat.sub_diag by done. cbn. f_equal.
        rewrite Hnext. lia.
  - unfold counter_inv, stored. rewrite Hcenter. split; [done|].
    intros i r Hr. eapply evolves_id_at; [done|]. by apply Hids.
Qed.

Lemma step_user_ok c v s s' : step c v s s' → user_ok s → user_ok s'.
Proof.
  unfold user_ok.
  intros [(now & t & x & _ & _ & _ & _ & ->)|(_ & _ & _ & [->|Hu])] Hs; auto.
Qed.

Lemma perform_step c s :
  heap_closed s → ∃ v s', perform c s = Some (v, s') ∧ step c v s s'.
Proof. apply perform_cases. Qed.

Lemma counter_inv_initial : counter_inv initial.
Proof. split; [done|]. intros i r Hr. done. Qed.

Lemma run_app cs1 cs2 s :
  run (cs1 ++ cs2) s =
  match run cs1 s with
  | Some (vs1, s1) =>
      match run cs2 s1 with
      | Some (vs2, s2) => Some (vs1 ++ vs2, s2)
      | None => None
      end
  | None => None
  end.
Proof.
  revert s. induction cs1 as [|c cs1 IH]; intros s.
  - cbn. unfold_monad. by destruct (run cs2 s) as [[vs2 s2]|].
  - cbn [app run]. unfold_monad.
    destruct (perform c s) as [[v s1]|]; [|done]. rewrite IH.
    destruct (run cs1 s1) as [[vs1 s2]|]; [|done].
    by destruct (run cs2 s2) as [[vs2 s3]|].
Qed.

Lemma reachable_initial : reachable initial.
Proof. by exists [], []. Qed.

Lemma reachable_run cs vs s s' :
  reachable s → run cs s = Some (vs, s') → reachable s'.
Proof.
  intros (cs0 & vs0 & Hrun0) Hrun. exists (cs0 ++ cs), (vs0 ++ vs).
  by rewrite run_app, Hrun0, Hrun.
Qed.

Lemma reachable_perform c v s s' :
  reachable s → perform c s = Some (v, s') → reachable s'.
Proof.
  intros Hs Hp. apply (reachable_run [c] [v] s s' Hs).
  cbn. unfold_monad. by rewrite Hp.
Qed.

Lemma created_cons c v cs vs :
  created (c :: cs) (v :: vs) = created [c] [v] ++ created cs vs.
Proof. destruct c, v; done. Qed.

(** A program runs to completion from any closed state; what it appends
    to the store is exactly what its [add_notification] calls returned. *)
Lemma run_effect cs :
  ∀ s, heap_closed s →
    ∃ vs s', run cs s = Some (vs, s') ∧
             heap_closed s' ∧
             evolves (heap s) (heap s') ∧
             stored s' = stored s ++ created cs vs ∧
             length (created cs vs) = creations cs ∧
             (counter_inv s → counter_inv s') ∧
             (user_ok s → user_ok s').
Proof.
  induction cs as [|c cs IH]; intros s Hs.
  - exists [], s. split_and!; try done.
    + apply evolves_refl.
    + by rewrite app_nil_r.
  - destruct (perform_step c s Hs) as (v & s1 & Hp & Hstep).
    pose proof (step_heap_closed _ _ _ _ Hstep Hs) as Hs1.
    destruct (IH s1 Hs1) as (vs & s' & Hrun & Hs' & Hev & Hst & Hlen & Hinv & Hu).
    exists (v :: vs), s'. split_and!.
    + cbn [run]. unfold_monad. by rewrite Hp, Hrun.
    + done.
    + eapply evolves_trans; [by eapply step_evolves|done].
    + rewrite Hst, (step_stored _ _ _ _ Hstep), (created_cons c v cs vs).
      by rewrite app_assoc.
    + rewrite (created_cons c v cs vs), length_app, Hlen.
      rewrite (step_created _ _ _ _ Hstep).
      unfold creations. cbn. by destruct (is_add c).
    + intros Hinv0. apply Hinv. by eapply step_counter_inv.
    + intros Hu0. apply Hu. by eapply step_user_ok.
Qed.

Lemma reachable_counter_inv s : reachable s → counter_inv s.
Proof.
  intros (cs & vs & Hrun).
  destruct (run_effect cs initial) as (vs' & s' & Hrun' & _ & _ & _ & _ & Hinv & _).
  { constructor. }
  rewrite Hrun in Hrun'. injection Hrun' as <- <-.
  apply Hinv, counter_inv_initial.
Qed.

Lemma reachable_user_ok s : reachable s → user_ok s.
Proof.
  intros (cs & vs & Hrun).
  destruct (run_effect cs initial) as (vs' & s' & Hrun' & _ & _ & _ & _ & _ & Hu).
  { constructor. }
  rewrite Hrun in Hrun'. injection Hrun' as <- <-.
  apply Hu. by left.
Qed.

(** After any run of the interface, the login test of the guarded methods
    succeeds exactly when [current_user] is set. *)
Lemma reachable_logged_in s :
  reachable s → logged_in s = true ↔ is_Some (current_user (system s)).
Proof.
  intros Hs. unfold logged_in.
  destruct (reachable_user_ok s Hs) as [->|(u & Hu & ->)]; cbn.
  - split; [done|]. by intros [? ?].
  - by rewrite Hu.
Qed.

Lemma reachable_heap_closed s : reachable s → heap_closed s.
Proof. intros Hs. by apply counter_inv_heap_closed, reachable_counter_inv. Qed.

(** ** Lookup by identifier under the counter invariant *)

Lemma counter_inv_find s i r :
  counter_inv s → stored s !! i = Some r →
  first_with_id (heap s) (Z.of_nat i + 1) (stored s) = Some r.
Proof.
  intros [_ Hids] Hr.
  assert (r ∈ stored s) as Hin by (apply list_elem_of_lookup; by exists i).
  destruct (first_with_id_is_Some _ _ _ _ Hin (Hids i r Hr)) as [r' Hfound].
  destruct (first_with_id_Some _ _ _ _ Hfound) as (j & Hj & Hid & _).
  rewrite (Hids j r' Hj) in Hid.
  assert (j = i) as -> by (injection Hid; lia).
  congruence.
Qed.

Lemma counter_inv_find_out_of_range s id :
  counter_inv s →
  (id < 1 ∨ Z.of_nat (length (stored s)) < id)%Z →
  first_with_id (heap s) id (stored s) = None.
Proof.
  intros [_ Hids] Hout. apply first_with_id_None. intros r Hr.
  apply list_elem_of_lookup in Hr as [j Hj].
  rewrite (Hids j r Hj). apply lookup_lt_Some in Hj.
  intros [= <-]. lia.
Qed.

(** Setting a read flag does not change what a lookup by identifier
    finds. *)
Lemma id_at_mark (h : Heap) r n b r' :
  h !! r = Some n → id_at (<[r := with_is_read b n]> h) r' = id_at h r'.
Proof.
  intros Hn. unfold id_at. destruct (decide (r = r')) as [<-|Hne].
  - rewrite list_lookup_insert_eq by by eapply lookup_lt_Some.
    by rewrite Hn.
  - by rewrite list_lookup_insert_ne.
Qed.

Lemma first_with_id_mark (h : Heap) r n b id l :
  h !! r = Some n →
  first_with_id (<[r := with_is_read b n]> h) id l = first_with_id h id l.
Proof.
  intros Hn. unfold first_with_id. f_equal.
  apply list_filter_iff. intros r'. by rewrite (id_at_mark _ _ _ _ _ Hn).
Qed.

(** ** Properties of the store *)

(** C1: whatever program runs on a freshly constructed system, with
    [add_notification] calls only or with other calls in between, it runs
    to completion, and the notifications its [add_notification] calls
    returned, taken in call order, carry the identifiers 1, 2, ..., N,
    where N is the number of those calls. *)
Theorem created_identifiers_count_from_one (cs : list Call) :
  ∃ vs s,
    run cs initial = Some (vs, s) ∧
    length (created cs vs) = creations cs ∧
    id_at (heap s) <$> created cs vs =
      (λ i, Some (Z.of_nat i)) <$> seq 1 (creations cs).
Proof.
  destruct (run_effect cs initial) as (vs & s & Hrun & _ & _ & Hst & Hlen & Hinv & _).
  { constructor. }
  destruct (Hinv counter_inv_initial) as [_ Hids].
  exists vs, s. split_and!; [done|done|].
  cbn in Hst. rewrite <- Hst, <- Hlen, <- Hst.
  apply list_eq. intros i. rewrite !list_lookup_fmap.
  destruct (stored s !! i) as [r|] eqn:Hr.
  - rewrite lookup_seq_lt by by eapply lookup_lt_Some.
    cbn. f_equal. rewrite (Hids i r Hr). f_equal. lia.
  - rewrite lookup_seq_ge by by apply lookup_ge_None.
    done.
Qed.

(** C7: in any state and for any title and content, the empty string
    included, [add_notification] returns a reference to a new object that
    carries the current value of [_next_id], the given title and content,
    the clock reading, and the read flag false; the reference is appended
    at the end of [_notifications], [_next_id] grows by one, and every
    other object, the user and the console are as before.  There is no
    failing case. *)
Theorem add_notification_creates
    (now : datetime) (title content : string) (s : State) :
  ∃ r s',
    add_notification now title content s = Some (r, s') ∧
    heap s !! r = None ∧
    heap s' !! r =
      Some {| notification_id := _next_id (center s);
              title := title;
              content := content;
              timestamp := now;
              is_read := false |} ∧
    (∀ r', r' ≠ r → heap s' !! r' = heap s !! r') ∧
    stored s' = stored s ++ [r] ∧
    _next_id (center s') = (_next_id (center s) + 1)%Z ∧
    current_user (system s') = current_user (system s) ∧
    console s' = console s.
Proof.
  eexists _, _. split; [apply add_notification_effect|]. cbn.
  split_and!; try done.
  - by apply lookup_ge_None.
  - by rewrite lookup_app_r, Nat.sub_diag.
  - intros r' Hne. destruct (decide (r' < length (heap s))) as [Hlt|Hge].
    + by rewrite lookup_app_l.
    + rewrite !lookup_ge_None_2; [done|lia|].
      rewrite length_app. cbn. lia.
Qed.

(** C5: [get_unread_notifications] returns the stored references whose
    object has the read flag false, in the order of the store, and leaves
    the state as it was; the result is empty when the store is empty and
    when every stored notification is read. *)
Theorem get_unread_notifications_spec (s : State) (Hs : heap_closed s) :
  ∃ l,
    get_unread_notifications s = Some (l, s) ∧
    l = filter (λ r, read_at (heap s) r = Some false) (stored s) ∧
    l `sublist_of` stored s ∧
    (∀ r, r ∈ l ↔ r ∈ stored s ∧ read_at (heap s) r = Some false) ∧
    (stored s = [] → l = []) ∧
    ((∀ r, r ∈ stored s → read_at (heap s) r = Some true) → l = []).
Proof.
  exists (unread_in (heap s) (stored s)).
  split; [by apply get_unread_notifications_effect|].
  unfold unread_in. split_and!.
  - done.
  - apply sublist_filter.
  - intros r. rewrite list_elem_of_filter. tauto.
  - by intros ->.
  - intros Hall. induction (stored s) as [|r l IH]; [done|].
    rewrite filter_cons_False.
    + apply IH. intros r' Hr'. apply Hall. by right.
    + rewrite Hall by left. done.
Qed.

Lemma get_unread_notifications_sample :
  heap_closed sample ∧
  get_unread_notifications sample = Some ([1], sample).
Proof.
  assert (heap_closed sample) as Hs by (repeat constructor).
  split; [exact Hs|].
  destruct (get_unread_notifications_spec sample Hs) as (l & Hl & Heq & _).
  rewrite Hl, Heq. vm_compute. reflexivity.
Defined.

(** C6: [get_notification_by_id] leaves the state as it was.  It returns
    a stored reference whose object has the identifier asked for when the
    store holds one, and [None] exactly when it holds none.  After a
    program with N [add_notification] calls, the identifier [i] with
    1 <= i <= N finds the notification the [i]-th of those calls
    returned, and the identifiers 0 and N+1 find nothing. *)
Theorem get_notification_by_id_spec
    (s : State) (id : Z) (Hs : heap_closed s) :
  (∃ res,
     get_notification_by_id id s = Some (res, s) ∧
     (∀ r, res = Some r → r ∈ stored s ∧ id_at (heap s) r = Some id) ∧
     (res = None ↔ ∀ r, r ∈ stored s → id_at (heap s) r ≠ Some id)) ∧
  (∀ cs vs,
     run cs initial = Some (vs, s) →
     (∀ i r, created cs vs !! i = Some r →
        get_notification_by_id (Z.of_nat i + 1) s = Some (Some r, s)) ∧
     get_notification_by_id 0 s = Some (None, s) ∧
     get_notification_by_id (Z.of_nat (creations cs) + 1) s = Some (None, s)).
Proof.
  split.
  - exists (first_with_id (heap s) id (stored s)).
    split; [by apply get_notification_by_id_effect|]. split.
    + intros r Hfound.
      destruct (first_with_id_lookup _ _ _ Hfound) as (n & Hn & Hid & Hin).
      split; [done|]. unfold id_at. rewrite Hn. cbn. by f_equal.
    + apply first_with_id_None.
  - intros cs vs Hrun.
    destruct (run_effect cs initial) as (vs' & s' & Hrun' & _ & _ & Hst & Hlen & Hinv & _).
    { constructor. }
    rewrite Hrun in Hrun'. injection Hrun' as <- <-.
    specialize (Hinv counter_inv_initial). cbn in Hst.
    rewrite <- Hst, <- Hlen, <- Hst. split_and!.
    + intros i r Hr. rewrite (get_notification_by_id_effect _ _ Hs).
      by rewrite (counter_inv_find _ _ _ Hinv Hr).
    + rewrite (get_notification_by_id_effect _ _ Hs).
      rewrite counter_inv_find_out_of_range; [done|done|lia].
    + rewrite (get_notification_by_id_effect _ _ Hs).
      rewrite counter_inv_find_out_of_range; [done|done|lia].
Qed.

Lemma get_notification_by_id_sample :
  heap_closed sample ∧
  run scenario initial = Some
    ([ value_notification 0; value_notification 1; value_bool true;
       value_list [0; 1]; value_optional (Some 0); value_list [1] ], sample) ∧
  get_notification_by_id 2 sample = Some (Some 1, sample) ∧
  get_notification_by_id 0 sample = Some (None, sample) ∧
  get_notification_by_id 3 sample = Some (None, sample).
Proof.
  assert (heap_closed sample) as Hs by (repeat constructor).
  assert (run scenario initial = Some
    ([ value_notification 0; value_notification 1; value_bool true;
       value_list [0; 1]; value_optional (Some 0); value_list [1] ], sample))
    as Hrun by (vm_compute; reflexivity).
  split; [exact Hs|]. split; [exact Hrun|].
  destruct (get_notification_by_id_spec sample 2 Hs) as [_ Hprogram].
  destruct (Hprogram scenario _ Hrun) as (Hfind & Hzero & Hnext).
  split_and!.
  - apply (Hfind 1 1). vm_compute. reflexivity.
  - exact Hzero.
  - exact Hnext.
Defined.

(** C10: in every state the interface can reach, [_next_id] is the number
    of stored notifications plus one and the [i]-th stored notification,
    counting from 1, has identifier [i]; every call of the interface runs
    to completion from such a state and ends in a state where this still
    holds. *)
Theorem counter_invariant (s : State) (Hs : reachable s) :
  (_next_id (center s) = (Z.of_nat (length (stored s)) + 1)%Z ∧
   ∀ i r, stored s !! i = Some r →
          id_at (heap s) r = Some (Z.of_nat i + 1)%Z) ∧
  ∀ c, ∃ v s',
    perform c s = Some (v, s') ∧
    _next_id (center s') = (Z.of_nat (length (stored s')) + 1)%Z ∧
    ∀ i r, stored s' !! i = Some r →
           id_at (heap s') r = Some (Z.of_nat i + 1)%Z.
Proof.
  pose proof (reachable_counter_inv s Hs) as Hinv.
  split; [exact Hinv|]. intros c.
  destruct (perform_step c s (counter_inv_heap_closed _ Hinv)) as (v & s' & Hp & Hstep).
  exists v, s'. split; [done|].
  by apply (step_counter_inv _ _ _ _ Hstep).
Qed.

Lemma counter_invariant_sample :
  reachable sample ∧ _next_id (center sample) = 3%Z.
Proof.
  assert (reachable sample) as Hs
    by (eexists scenario, _; vm_compute; reflexivity).
  split; [exact Hs|].
  destruct (counter_invariant sample Hs) as [[Hnext _] _].
  rewrite Hnext. vm_compute. reflexivity.
Defined.

(** ** Properties of the gateway *)

(** C4: [login] returns true exactly when both strings are non-empty; it
    then records the username as the current user and touches neither the
    heap nor the center.  When it returns false the state is the one it
    started from. *)
Theorem login_spec (username password : string) (s : State) :
  ∃ b s',
    login username password s = Some (b, s') ∧
    (b = true ↔ username ≠ "" ∧ password ≠ "") ∧
    (b = true →
       current_user (system s') = Some username ∧
       heap s' = heap s ∧ center s' = center s) ∧
    (b = false → s' = s).
Proof.
  rewrite login_effect.
  destruct username as [|a u], password as [|a' p]; cbn;
    eexists _, _; (split; [done|]); split_and!; try done;
    try (split; [done|]; intros [? ?]; done).
Qed.

Lemma read_at_mark (h : Heap) r n :
  h !! r = Some n → read_at (<[r := with_is_read true n]> h) r = Some true.
Proof.
  intros Hn. unfold read_at.
  by rewrite list_lookup_insert_eq by by eapply lookup_lt_Some.
Qed.

(** C3: [check_notifications] changes neither the heap nor the system
    object (it only prints).  Logged out, it returns the empty list
    whatever the store holds; logged in, it returns the stored references
    whose object is unread, in the order of the store.  The login test is
    the truth value of [current_user], which after any run of the
    interface is true exactly when [current_user] is set. *)
Theorem check_notifications_spec (s : State) (Hs : heap_closed s) :
  ∃ l s',
    check_notifications s = Some (l, s') ∧
    heap s' = heap s ∧
    system s' = system s ∧
    (logged_in s = false → l = []) ∧
    (logged_in s = true →
       l = filter (λ r, read_at (heap s) r = Some false) (stored s)) ∧
    (reachable s → logged_in s = true ↔ is_Some (current_user (system s))).
Proof.
  pose proof (reachable_logged_in s) as Hlog.
  destruct (logged_in s) eqn:Hin.
  - rewrite (check_notifications_logged_in _ Hin Hs).
    eexists _, _. split; [done|]. cbn. split_and!; done.
  - rewrite (check_notifications_logged_out _ Hin).
    eexists _, _. split; [done|]. cbn. split_and!; done.
Qed.

Lemma check_notifications_sample :
  heap_closed sample ∧ logged_in sample = true ∧
  fst <$> check_notifications sample = Some [1].
Proof.
  assert (heap_closed sample) as Hs by (repeat constructor).
  assert (logged_in sample = true) as Hin by (vm_compute; reflexivity).
  split; [exact Hs|]. split; [exact Hin|].
  destruct (check_notifications_spec sample Hs) as (l & s' & Hl & _ & _ & _ & Heq & _).
  rewrite Hl, (Heq Hin). vm_compute. reflexivity.
Defined.

(** C2: [view_notification] never changes the system object.  Logged out,
    it returns [None] and leaves the heap alone, whatever the store holds.
    Logged in, with no stored notification of that identifier, it returns
    [None] and leaves the heap alone.  Logged in, with a stored
    notification of that identifier, it returns a reference to a stored
    object with that identifier, and the new heap is the old one with the
    read flag of that very object set to true.  The login test is the
    truth value of [current_user], which after any run of the interface is
    true exactly when [current_user] is set. *)
Theorem view_notification_spec (s : State) (id : Z) (Hs : heap_closed s) :
  ∃ res s',
    view_notification id s = Some (res, s') ∧
    system s' = system s ∧
    (logged_in s = false → res = None ∧ heap s' = heap s) ∧
    (logged_in s = true →
     (∀ r, r ∈ stored s → id_at (heap s) r ≠ Some id) →
     res = None ∧ heap s' = heap s) ∧
    (logged_in s = true →
     (∃ r, r ∈ stored s ∧ id_at (heap s) r = Some id) →
     ∃ r n,
       res = Some r ∧ r ∈ stored s ∧
       heap s !! r = Some n ∧ notification_id n = id ∧
       heap s' = <[r := with_is_read true n]> (heap s) ∧
       read_at (heap s') r = Some true) ∧
    (reachable s → logged_in s = true ↔ is_Some (current_user (system s))).
Proof.
  pose proof (reachable_logged_in s) as Hlog.
  destruct (logged_in s) eqn:Hin.
  - destruct (first_with_id (heap s) id (stored s)) as [r|] eqn:Hfound.
    + destruct (first_with_id_lookup _ _ _ Hfound) as (n & Hn & Hid & Hr).
      rewrite (view_notification_found _ _ _ _ Hin Hs Hfound Hn).
      eexists _, _. split; [done|]. cbn. split_and!; try done.
      * intros _ Hnone. destruct (Hnone r Hr).
        unfold id_at. rewrite Hn. cbn. by f_equal.
      * intros _ _. exists r, n. split_and!; try done.
        by apply read_at_mark.
    + rewrite (view_notification_not_found _ _ Hin Hs Hfound).
      eexists _, _. split; [done|]. cbn. split_and!; try done.
      * intros _ (r & Hr & Hid).
        by destruct (proj1 (first_with_id_None _ _ _) Hfound r Hr).
  - rewrite (view_notification_logged_out _ _ Hin).
    eexists _, _. split; [done|]. cbn. split_and!; done.
Qed.

Lemma view_notification_sample :
  heap_closed sample ∧ logged_in sample = true ∧
  (∃ r, r ∈ stored sample ∧ id_at (heap sample) r = Some 2%Z) ∧
  ∃ s', view_notification 2 sample = Some (Some 1, s') ∧
        read_at (heap s') 1 = Some true.
Proof.
  assert (heap_closed sample) as Hs by (repeat constructor).
  assert (logged_in sample = true) as Hin by (vm_compute; reflexivity).
  assert (∃ r, r ∈ stored sample ∧ id_at (heap sample) r = Some 2%Z) as Hex.
  { exists 1. split; [|vm_compute; reflexivity].
    apply list_elem_of_lookup. exists 1. vm_compute. reflexivity. }
  split; [exact Hs|]. split; [exact Hin|]. split; [exact Hex|].
  destruct (view_notification_spec sample 2 Hs)
    as (res & s' & Hview & _ & _ & _ & Hfound & _).
  destruct (Hfound Hin Hex) as (r & n & -> & _ & _ & _ & _ & Hread).
  exists s'. assert (r = 1) as ->.
  { assert (fst <$> view_notification 2 sample = Some (Some 1)) as Hv
      by (vm_compute; reflexivity).
    rewrite Hview in Hv. cbn in Hv. congruence. }
  split; [exact Hview|exact Hread].
Defined.

Lemma with_is_read_id n : is_read n = true → with_is_read true n = n.
Proof. destruct n as [i t c ts b]. cbn. by intros ->. Qed.

(** C9: logged in, with a stored notification of the identifier asked
    for, two calls of [view_notification] in a row return the same
    reference; the object's read flag is true after the first call and
    after the second, and the second call changes neither the heap nor
    the system object.  A notification that was already read is returned
    all the same, with the heap unchanged. *)
Theorem view_notification_twice
    (s : State) (id : Z)
    (Hs : heap_closed s) (Hin : logged_in s = true)
    (Hex : ∃ r, r ∈ stored s ∧ id_at (heap s) r = Some id) :
  ∃ r s1 s2,
    view_notification id s = Some (Some r, s1) ∧
    view_notification id s1 = Some (Some r, s2) ∧
    r ∈ stored s ∧
    id_at (heap s) r = Some id ∧
    read_at (heap s1) r = Some true ∧
    read_at (heap s2) r = Some true ∧
    heap s2 = heap s1 ∧
    system s2 = system s1 ∧
    (read_at (heap s) r = Some true → heap s1 = heap s).
Proof.
  destruct Hex as (r0 & Hr0 & Hid0).
  destruct (first_with_id_is_Some _ _ _ _ Hr0 Hid0) as [r Hfound].
  destruct (first_with_id_lookup _ _ _ Hfound) as (n & Hn & Hid & Hr).
  pose proof (view_notification_found _ _ _ _ Hin Hs Hfound Hn) as Hview1.
  set (s1 := {| heap := <[r := with_is_read true n]> (heap s);
                system := system s;
                console := console s ++
                  [print_viewing id; print_title (title n);
                   print_content (content n); print_timestamp (timestamp n);
                   print_marked_read] |}) in *.
  assert (heap s1 !! r = Some (with_is_read true n)) as Hn1.
  { cbn. apply list_lookup_insert_eq. by eapply lookup_lt_Some. }
  assert (heap_closed s1) as Hs1.
  { unfold heap_closed. cbn. by rewrite length_insert. }
  assert (first_with_id (heap s1) id (stored s1) = Some r) as Hfound1.
  { cbn. by rewrite (first_with_id_mark _ _ _ _ _ _ Hn). }
  pose proof (view_notification_found id s1 r _ Hin Hs1 Hfound1 Hn1) as Hview2.
  eexists r, s1, _. split; [exact Hview1|]. split; [exact Hview2|].
  cbn. split_and!.
  - done.
  - unfold id_at. rewrite Hn. cbn. by f_equal.
  - by apply read_at_mark.
  - rewrite list_insert_insert_eq. unfold read_at.
    by rewrite list_lookup_insert_eq by by eapply lookup_lt_Some.
  - rewrite list_insert_insert_eq. reflexivity.
  - done.
  - unfold read_at. rewrite Hn. cbn. intros [= Hread].
    rewrite (with_is_read_id _ Hread). by apply list_insert_id.
Qed.

Lemma view_notification_twice_sample :
  heap_closed sample ∧ logged_in sample = true ∧
  (∃ r, r ∈ stored sample ∧ id_at (heap sample) r = Some 2%Z) ∧
  ∃ r s1 s2,
    view_notification 2 sample = Some (Some r, s1) ∧
    view_notification 2 s1 = Some (Some r, s2) ∧
    read_at (heap s2) r = Some true.
Proof.
  assert (heap_closed sample) as Hs by (repeat constructor).
  assert (logged_in sample = true) as Hin by (vm_compute; reflexivity).
  assert (∃ r, r ∈ stored sample ∧ id_at (heap sample) r = Some 2%Z) as Hex.
  { exists 1. split; [|vm_compute; reflexivity].
    apply list_elem_of_lookup. exists 1. vm_compute. reflexivity. }
  split; [exact Hs|]. split; [exact Hin|]. split; [exact Hex|].
  destruct (view_notification_twice sample 2 Hs Hin Hex)
    as (r & s1 & s2 & Hview1 & Hview2 & _ & _ & _ & Hread & _).
  exists r, s1, s2. split; [exact Hview1|]. split; [exact Hview2|exact Hread].
Defined.

(** C8: from any state the interface can reach, any further program of
    interface calls runs to completion, every stored notification is still
    stored afterwards, and every object whose read flag was true still has
    it true: no call takes a read flag back from true to false. *)
Theorem read_flag_never_goes_back
    (s : State) (cs : list Call) (Hs : reachable s) :
  ∃ vs s',
    run cs s = Some (vs, s') ∧
    (∀ r, r ∈ stored s → r ∈ stored s') ∧
    (∀ r, read_at (heap s) r = Some true → read_at (heap s') r = Some true).
Proof.
  destruct (run_effect cs s (reachable_heap_closed s Hs))
    as (vs & s' & Hrun & _ & Hev & Hst & _).
  exists vs, s'. split_and!.
  - done.
  - intros r Hr. rewrite Hst. apply elem_of_app. by left.
  - intros r. by apply evolves_read_at.
Qed.

Lemma read_flag_never_goes_back_sample :
  reachable sample ∧
  ∃ vs s',
    run [ call_view_notification 1; call_add_notification 102%Z "" "";
          call_login "" ""; call_check_notifications;
          call_get_notification_by_id 1; call_get_unread_notifications ]
        sample = Some (vs, s') ∧
    read_at (heap s') 0 = Some true.
Proof.
  assert (reachable sample) as Hs
    by (eexists scenario, _; vm_compute; reflexivity).
  split; [exact Hs|].
  destruct (read_flag_never_goes_back sample
              [ call_view_notification 1; call_add_notification 102%Z "" "";
                call_login "" ""; call_check_notifications;
                call_get_notification_by_id 1; call_get_unread_notifications ]
              Hs)
    as (vs & s' & Hrun & _ & Hkeep).
  exists vs, s'. split; [exact Hrun|].
  apply Hkeep. vm_compute. reflexivity.
Defined.

(** ** Further properties of programs over the interface *)

(** A property every step keeps holds after any program. *)
Lemma run_invariant (P : State → Prop) :
  (∀ c v s s', heap_closed s → step c v s s' → P s → P s') →
  ∀ cs s, heap_closed s → P s →
    ∃ vs s', run cs s = Some (vs, s') ∧ heap_closed s' ∧ P s'.
Proof.
  intros Hkeep. induction cs as [|c cs IH]; intros s Hs HP.
  - by exists [], s.
  - destruct (perform_step c s Hs) as (v & s1 & Hp & Hstep).
    destruct (IH s1) as (vs & s' & Hrun & Hs' & HP').
    { by eapply step_heap_closed. }
    { by eapply Hkeep. }
    exists (v :: vs), s'. split_and!; [|done..].
    cbn [run]. unfold_monad. by rewrite Hp, Hrun.
Qed.

(** X1: whatever program of interface calls runs, every object that was
    in the heap is still there afterwards with the same identifier, title,
    content and timestamp: only the read flag of a notification is ever
    written after its creation. *)
Theorem notification_fields_never_change
    (s : State) (cs : list Call) (Hs : heap_closed s) :
  ∃ vs s',
    run cs s = Some (vs, s') ∧
    ∀ r n, heap s !! r = Some n →
      ∃ n', heap s' !! r = Some n' ∧
            notification_id n' = notification_id n ∧
            title n' = title n ∧
            content n' = content n ∧
            timestamp n' = timestamp n.
Proof.
  destruct (run_effect cs s Hs) as (vs & s' & Hrun & _ & Hev & _).
  exists vs, s'. split; [done|]. intros r n Hn.
  destruct (Hev r n Hn) as (n' & Hn' & Hid & Ht & Hc & Hts & _).
  by exists n'.
Qed.

Lemma notification_fields_never_change_sample :
  heap_closed sample ∧
  ∃ vs s',
    run [ call_view_notification 2; call_add_notification 7%Z "t" "c";
          call_login "x" "y" ] sample = Some (vs, s') ∧
    title <$> heap s' !! 1 = Some "Urgent: Medication Update".
Proof.
  assert (heap_closed sample) as Hs by (repeat constructor).
  split; [exact Hs|].
  destruct (notification_fields_never_change sample
              [ call_view_notification 2; call_add_notification 7%Z "t" "c";
                call_login "x" "y" ] Hs)
    as (vs & s' & Hrun & Hkeep).
  exists vs, s'. split; [exact Hrun|].
  assert (heap sample !! 1 =
          Some (mkNotification 2 "Urgent: Medication Update" "review" 101%Z false))
    as Hn by (vm_compute; reflexivity).
  destruct (Hkeep 1 _ Hn) as (n' & Hn' & _ & Ht & _).
  rewrite Hn'. cbn. rewrite Ht. reflexivity.
Defined.

(** X2: there is no way back to logged out.  Once the login test
    succeeds it succeeds after every further program of interface calls,
    failed logins included. *)
Theorem logged_in_is_permanent
    (s : State) (cs : list Call)
    (Hs : heap_closed s) (Hin : logged_in s = true) :
  ∃ vs s', run cs s = Some (vs, s') ∧ logged_in s' = true.
Proof.
  destruct (run_invariant (λ s, logged_in s = true)) with (cs := cs) (s := s)
    as (vs & s' & Hrun & _ & Hin'); [|done|done|by exists vs, s'].
  clear. unfold logged_in.
  intros c v s s' _ [(now & t & x & _ & _ & _ & _ & ->)|(_ & _ & _ & [->|Hu])];
    [done|done|].
  destruct Hu as (u & Hu & ->). intros _. exact Hu.
Qed.

Lemma logged_in_is_permanent_sample :
  heap_closed sample ∧ logged_in sample = true ∧
  ∃ vs s',
    run [ call_login "" ""; call_login "dr.jones" ""; call_check_notifications ]
        sample = Some (vs, s') ∧
    logged_in s' = true.
Proof.
  assert (heap_closed sample) as Hs by (repeat constructor).
  assert (logged_in sample = true) as Hin by (vm_compute; reflexivity).
  split; [exact Hs|]. split; [exact Hin|].
  exact (logged_in_is_permanent sample
           [ call_login "" ""; call_login "dr.jones" ""; call_check_notifications ]
           Hs Hin).
Defined.

(** X3: in every state the interface can reach, the stored references are
    pairwise distinct objects and their identifiers are pairwise distinct:
    no notification is stored twice and no identifier is issued twice. *)
Theorem stored_notifications_are_distinct (s : State) (Hs : reachable s) :
  NoDup (stored s) ∧ NoDup (id_at (heap s) <$> stored s).
Proof.
  destruct (reachable_counter_inv s Hs) as [_ Hids].
  assert (NoDup (id_at (heap s) <$> stored s)) as Hnodup.
  { apply NoDup_alt. intros i j x. rewrite !list_lookup_fmap.
    destruct (stored s !! i) as [ri|] eqn:Hi; [|done].
    destruct (stored s !! j) as [rj|] eqn:Hj; [|done].
    cbn. rewrite (Hids i ri Hi), (Hids j rj Hj).
    intros [= <-] [= Hij]. lia. }
  split; [|done]. by eapply NoDup_fmap_1.
Qed.

Lemma stored_notifications_are_distinct_sample :
  reachable sample ∧
  NoDup (stored sample) ∧ NoDup (id_at (heap sample) <$> stored sample).
Proof.
  assert (reachable sample) as Hs
    by (eexists scenario, _; vm_compute; reflexivity).
  split; [exact Hs|]. exact (stored_notifications_are_distinct sample Hs).
Defined.

(** X4: when several stored notifications carry the identifier asked
    for, [get_notification_by_id] returns the one stored earliest: no
    notification stored before the one it returns has that identifier. *)
Theorem get_notification_by_id_first_match
    (s : State) (id : Z) (r : ref)
    (Hs : heap_closed s)
    (Hfound : fst <$> get_notification_by_id id s = Some (Some r)) :
  ∃ i,
    stored s !! i = Some r ∧
    id_at (heap s) r = Some id ∧
    ∀ j r', j < i → stored s !! j = Some r' → id_at (heap s) r' ≠ Some id.
Proof.
  rewrite (get_notification_by_id_effect _ _ Hs) in Hfound. cbn in Hfound.
  apply first_with_id_Some. congruence.
Qed.

Lemma get_notification_by_id_first_match_sample :
  heap_closed sample_same_id ∧
  fst <$> get_notification_by_id 5 sample_same_id = Some (Some 0) ∧
  id_at (heap sample_same_id) 1 = Some 5%Z ∧
  ∃ i, stored sample_same_id !! i = Some 0 ∧
       id_at (heap sample_same_id) 0 = Some 5%Z.
Proof.
  assert (heap_closed sample_same_id) as Hs by (repeat constructor).
  assert (fst <$> get_notification_by_id 5 sample_same_id = Some (Some 0))
    as Hfound by (vm_compute; reflexivity).
  split; [exact Hs|]. split; [exact Hfound|].
  split; [vm_compute; reflexivity|].
  destruct (get_notification_by_id_first_match sample_same_id 5 0 Hs Hfound)
    as (i & Hi & Hid & _).
  exists i. split; [exact Hi|exact Hid].
Defined.

(** X5: in every state the interface can reach, a notification that was
    just created is found again under the identifier it was given:
    looking up the value [_next_id] had before [add_notification] returns
    the very object [add_notification] returned. *)
Theorem add_then_get_by_id
    (s : State) (now : datetime) (title content : string)
    (Hs : reachable s) :
  ∃ r s',
    add_notification now title content s = Some (r, s') ∧
    get_notification_by_id (_next_id (center s)) s' = Some (Some r, s').
Proof.
  pose proof (reachable_counter_inv s Hs) as Hinv.
  eexists _, _. split; [apply add_notification_effect|].
  match goal with |- _ _ ?s1 = _ => set (s' := s1) end.
  assert (step (call_add_notification now title content)
               (value_notification (length (heap s))) s s') as Hstep.
  { left. by exists now, title, content. }
  pose proof (step_counter_inv _ _ _ _ Hstep Hinv) as Hinv'.
  rewrite (get_notification_by_id_effect _ _ (counter_inv_heap_closed _ Hinv')).
  destruct Hinv as [-> _].
  rewrite (counter_inv_find s' (length (stored s)) (length (heap s)) Hinv');
    [done|].
  cbn. by rewrite lookup_app_r, Nat.sub_diag.
Qed.

Lemma add_then_get_by_id_sample :
  reachable sample ∧
  ∃ r s',
    add_notification 102%Z "Lab results" "" sample = Some (r, s') ∧
    get_notification_by_id 3 s' = Some (Some r, s').
Proof.
  assert (reachable sample) as Hs
    by (eexists scenario, _; vm_compute; reflexivity).
  split; [exact Hs|].
  exact (add_then_get_by_id sample 102%Z "Lab results" "" Hs).
Defined.

Lemma filter_ext_in {A} (P Q : A → Prop)
    `{!∀ x, Decision (P x), !∀ x, Decision (Q x)} (l : list A) :
  (∀ x, x ∈ l → P x ↔ Q x) → filter P l = filter Q l.
Proof.
  induction l as [|x l IH]; intros Hiff; [done|].
  rewrite !filter_cons.
  rewrite IH by (intros y Hy; apply Hiff; by right).
  destruct (decide (P x)) as [HP|HP], (decide (Q x)) as [HQ|HQ]; try done.
  - destruct HQ. apply Hiff; [by left|done].
  - destruct HP. apply Hiff; [by left|done].
Qed.

(** X6: a notification that was just created is unread and comes last:
    the unread list after [add_notification] is the unread list before
    it followed by the new notification. *)
Theorem add_then_get_unread
    (s : State) (now : datetime) (title content : string)
    (Hs : heap_closed s) :
  ∃ r s' l,
    add_notification now title content s = Some (r, s') ∧
    get_unread_notifications s = Some (l, s) ∧
    get_unread_notifications s' = Some (l ++ [r], s').
Proof.
  eexists _, _, _. split; [apply add_notification_effect|].
  split; [by apply get_unread_notifications_effect|].
  match goal with |- _ ?s1 = _ => set (s' := s1) end.
  assert (heap_closed s') as Hs'.
  { unfold heap_closed. cbn. rewrite length_app. cbn.
    apply Forall_app. split.
    - eapply Forall_impl; [exact Hs|]. cbn. lia.
    - repeat constructor. lia. }
  rewrite (get_unread_notifications_effect _ Hs'). do 2 f_equal.
  unfold unread_in. cbn. rewrite filter_app. f_equal.
  - apply filter_ext_in. intros r Hr. unfold read_at.
    rewrite lookup_app_l; [done|].
    unfold heap_closed in Hs. rewrite Forall_forall in Hs. by apply Hs.
  - rewrite filter_cons_True; [done|].
    unfold read_at. by rewrite lookup_app_r, Nat.sub_diag.
Qed.

Lemma add_then_get_unread_sample :
  heap_closed sample ∧
  ∃ s', add_notification 102%Z "Lab results" "" sample = Some (2, s') ∧
        get_unread_notifications s' = Some ([1; 2], s').
Proof.
  assert (heap_closed sample) as Hs by (repeat constructor).
  split; [exact Hs|].
  destruct (add_then_get_unread sample 102%Z "Lab results" "" Hs)
    as (r & s' & l & Hadd & Hl & Hl').
  assert (r = 2) as ->.
  { assert (fst <$> add_notification 102%Z "Lab results" "" sample = Some 2) as H
      by (vm_compute; reflexivity).
    rewrite Hadd in H. cbn in H. congruence. }
  assert (l = [1]) as ->.
  { assert (fst <$> get_unread_notifications sample = Some [1]) as H
      by (vm_compute; reflexivity).
    rewrite Hl in H. cbn in H. congruence. }
  exists s'. split; [exact Hadd|exact Hl'].
Defined.

Lemma unread_in_mark (h : Heap) r n l :
  h !! r = Some n →
  unread_in (<[r := with_is_read true n]> h) l =
  filter (λ x, x ≠ r) (unread_in h l).
Proof.
  intros Hn. unfold unread_in. rewrite list_filter_filter.
  apply list_filter_iff. intros x. unfold read_at.
  destruct (decide (x = r)) as [->|Hne].
  - rewrite list_lookup_insert_eq by by eapply lookup_lt_Some.
    cbn. split; [done|]. by intros [? _].
  - rewrite list_lookup_insert_ne by done. tauto.
Qed.

(** X7: viewing a notification takes exactly that notification out of
    what [check_notifications] returns; every other unread notification
    is still listed, in the same order. *)
Theorem view_then_check
    (s : State) (id : Z)
    (Hs : heap_closed s) (Hin : logged_in s = true)
    (Hex : ∃ r, r ∈ stored s ∧ id_at (heap s) r = Some id) :
  ∃ r s1 l,
    view_notification id s = Some (Some r, s1) ∧
    fst <$> check_notifications s = Some l ∧
    fst <$> check_notifications s1 = Some (filter (λ x, x ≠ r) l).
Proof.
  destruct Hex as (r0 & Hr0 & Hid0).
  destruct (first_with_id_is_Some _ _ _ _ Hr0 Hid0) as [r Hfound].
  destruct (first_with_id_lookup _ _ _ Hfound) as (n & Hn & _).
  eexists r, _, _.
  split; [exact (view_notification_found _ _ _ _ Hin Hs Hfound Hn)|].
  split; [by rewrite (check_notifications_logged_in _ Hin Hs)|].
  match goal with |- _ <$> _ ?s1 = _ => set (s' := s1) end.
  assert (heap_closed s') as Hs'.
  { unfold heap_closed. cbn. by rewrite length_insert. }
  rewrite (check_notifications_logged_in s' Hin Hs'). cbn. f_equal.
  by apply unread_in_mark.
Qed.

Lemma view_then_check_sample :
  heap_closed sample_logged_out ∧
  ∃ vs s, run [call_login "dr.smith" "pw"] sample_logged_out = Some (vs, s) ∧
  ∃ r s1 l,
    view_notification 1 s = Some (Some r, s1) ∧
    fst <$> check_notifications s = Some l ∧
    fst <$> check_notifications s1 = Some (filter (λ x, x ≠ r) l).
Proof.
  assert (heap_closed sample_logged_out) as Hs0 by (repeat constructor).
  split; [exact Hs0|].
  eexists _, _. split; [vm_compute; reflexivity|].
  apply view_then_check.
  - repeat constructor.
  - vm_compute. reflexivity.
  - exists 0. split; [|vm_compute; reflexivity].
    apply list_elem_of_lookup. exists 0. vm_compute. reflexivity.
Defined.

(** Logged out, a call other than a successful [login] leaves every
    object as it is, at most adding a new unread one, and leaves the
    system logged out. *)
Lemma perform_logged_out c s :
  heap_closed s → logged_in s = false → grants c = false →
  ∃ v s',
    perform c s = Some (v, s') ∧
    heap_closed s' ∧ logged_in s' = false ∧
    (heap s' = heap s ∨ ∃ n, is_read n = false ∧ heap s' = heap s ++ [n]).
Proof.
  intros Hs Hout Hc.
  destruct (perform_step c s Hs) as (v & s' & Hp & Hstep).
  exists v, s'. split; [done|]. split; [by eapply step_heap_closed|].
  revert Hp. destruct c as [now t x| |id|u p| |id]; cbn [perform];
    unfold fmap, M_fmap, M_bind, M_ret.
  - rewrite add_notification_effect. intros [= <- <-].
    split; [exact Hout|]. right. eexists. split; [|reflexivity]. reflexivity.
  - rewrite (get_unread_notifications_effect _ Hs). intros [= <- <-]. auto.
  - rewrite (get_notification_by_id_effect _ _ Hs). intros [= <- <-]. auto.
  - rewrite login_effect. cbn in Hc. rewrite Hc. intros [= <- <-]. auto.
  - rewrite (check_notifications_logged_out _ Hout). intros [= <- <-]. auto.
  - rewrite (view_notification_logged_out _ _ Hout). intros [= <- <-]. auto.
Qed.

(** X8: reading is gated.  From a logged-out state, a program with no
    successful [login] in it (no [login] call with two non-empty strings)
    ends logged out, with every object it started with unchanged and every
    object it created unread: nothing gets marked read without a login. *)
Theorem nothing_is_read_without_login
    (s : State) (cs : list Call)
    (Hs : heap_closed s) (Hout : logged_in s = false)
    (Hcs : Forall (λ c, grants c = false) cs) :
  ∃ vs s' k,
    run cs s = Some (vs, s') ∧
    logged_in s' = false ∧
    heap s' = heap s ++ k ∧
    Forall (λ n, is_read n = false) k.
Proof.
  revert s Hs Hout. induction Hcs as [|c cs Hc _ IH]; intros s Hs Hout.
  - exists [], s, []. split_and!; try done. by rewrite app_nil_r.
  - destruct (perform_logged_out c s Hs Hout Hc)
      as (v & s1 & Hp & Hs1 & Hout1 & Hheap).
    destruct (IH s1 Hs1 Hout1) as (vs & s' & k & Hrun & Hout' & Hk & Hunread).
    assert (run (c :: cs) s = Some (v :: vs, s')) as Hrun'.
    { cbn [run]. unfold_monad. by rewrite Hp, Hrun. }
    destruct Hheap as [Hsame|(n & Hn & Hnew)].
    + exists (v :: vs), s', k. split_and!; try done. by rewrite Hk, Hsame.
    + exists (v :: vs), s', (n :: k). split_and!; try done.
      * rewrite Hk, Hnew. by rewrite <- app_assoc.
      * by constructor.
Qed.

Lemma nothing_is_read_without_login_sample :
  heap_closed sample_logged_out ∧ logged_in sample_logged_out = false ∧
  ∃ vs s' k,
    run [ call_view_notification 1; call_login "dr.smith" "";
          call_add_notification 9%Z "t" "c"; call_view_notification 3;
          call_check_notifications ] sample_logged_out = Some (vs, s') ∧
    logged_in s' = false ∧
    heap s' = heap sample_logged_out ++ k ∧
    Forall (λ n, is_read n = false) k.
Proof.
  assert (heap_closed sample_logged_out) as Hs by (repeat constructor).
  assert (logged_in sample_logged_out = false) as Hout
    by (vm_compute; reflexivity).
  split; [exact Hs|]. split; [exact Hout|].
  apply (nothing_is_read_without_login _ _ Hs Hout).
  repeat constructor.
Defined.

(** X9: [check_notifications] prints exactly one line: the advice to log
    in when logged out, and otherwise the number of notifications in the
    list it returns. *)
Theorem check_notifications_prints (s : State) (Hs : heap_closed s) :
  ∃ l s',
    check_notifications s = Some (l, s') ∧
    console s' = console s ++
      [if logged_in s then print_found (length l) else print_please_log_in].
Proof.
  destruct (logged_in s) eqn:Hin.
  - rewrite (check_notifications_logged_in _ Hin Hs). by eexists _, _.
  - rewrite (check_notifications_logged_out _ Hin). by eexists _, _.
Qed.

Lemma check_notifications_prints_sample :
  heap_closed sample ∧
  ∃ l s',
    check_notifications sample = Some (l, s') ∧
    console s' = console sample ++ [print_found 1].
Proof.
  assert (heap_closed sample) as Hs by (repeat constructor).
  split; [exact Hs|].
  destruct (check_notifications_prints sample Hs) as (l & s' & Hcheck & Hout).
  exists l, s'. split; [exact Hcheck|]. rewrite Hout.
  assert (l = [1]) as ->.
  { assert (fst <$> check_notifications sample = Some [1]) as H
      by (vm_compute; reflexivity).
    rewrite Hcheck in H. cbn in H. congruence. }
  reflexivity.
Defined.

(** X10: what [view_notification] prints.  Logged out: the advice to log
    in.  Logged in and nothing found: one line naming the identifier
    asked for.  Logged in and found: the identifier asked for, then the
    title, content and timestamp of the object returned, then the line
    that says it was marked as read. *)
Theorem view_notification_prints (s : State) (id : Z) (Hs : heap_closed s) :
  ∃ res s',
    view_notification id s = Some (res, s') ∧
    console s' = console s ++
      (if logged_in s then
         match res with
         | Some r =>
             match heap s !! r with
             | Some n =>
                 [ print_viewing id; print_title (title n);
                   print_content (content n);
                   print_timestamp (timestamp n); print_marked_read ]
             | None => []
             end
         | None => [print_not_found id]
         end
       else [print_please_log_in]) ∧
    (∀ r, res = Some r → is_Some (heap s !! r)).
Proof.
  destruct (logged_in s) eqn:Hin.
  - destruct (first_with_id (heap s) id (stored s)) as [r|] eqn:Hfound.
    + destruct (first_with_id_lookup _ _ _ Hfound) as (n & Hn & _).
      rewrite (view_notification_found _ _ _ _ Hin Hs Hfound Hn).
      eexists _, _. split; [done|]. cbn. rewrite Hn. split; [done|].
      intros r' [= <-]. by exists n.
    + rewrite (view_notification_not_found _ _ Hin Hs Hfound).
      eexists _, _. split; [done|]. split; [done|]. by intros r' [=].
  - rewrite (view_notification_logged_out _ _ Hin).
    eexists _, _. split; [done|]. split; [done|]. by intros r' [=].
Qed.

Lemma view_notification_prints_sample :
  heap_closed sample ∧
  ∃ res s',
    view_notification 7 sample = Some (res, s') ∧
    console s' = console sample ++ [print_not_found 7].
Proof.
  assert (heap_closed sample) as Hs by (repeat constructor).
  split; [exact Hs|].
  destruct (view_notification_prints sample 7 Hs) as (res & s' & Hview & Hout & _).
  exists res, s'. split; [exact Hview|]. rewrite Hout.
  assert (res = None) as ->.
  { assert (fst <$> view_notification 7 sample = Some None) as H
      by (vm_compute; reflexivity).
    rewrite Hview in H. cbn in H. congruence. }
  reflexivity.
Defined.

Lemma lookup_last_two {A} (h : list A) a b :
  ((h ++ [a]) ++ [b]) !! length h = Some a ∧
  ((h ++ [a]) ++ [b]) !! S (length h) = Some b.
Proof.
  rewrite <- app_assoc. cbn. split.
  - by apply list_lookup_middle.
  - rewrite lookup_app_r by lia.
    by replace (S (length h) - length h) with 1 by lia.
Qed.

(** X11: [main] runs to completion whatever the heap and the console held
    before and whatever the clock reads.  It ends with two new objects at
    the end of the heap, identifiers 1 and 2, the first one read and the
    second one unread; its system object stores exactly these two, has
    the counter at 3 and "dr.smith" as current user; and it printed the
    login line, the count 2 and the five lines of viewing notification
    1. *)
Theorem main_outcome (t1 t2 : datetime) (s : State) :
  ∃ s',
    main t1 t2 s = Some (tt, s') ∧
    heap s' = heap s ++
      [ mkNotification 1 "Patient Follow-up"
          "Patient John Doe requires a follow-up consultation for recent test results."
          t1 true;
        mkNotification 2 "Urgent: Medication Update"
          "Immediate review needed for patient medications due to potential interactions."
          t2 false ] ∧
    stored s' = [length (heap s); S (length (heap s))] ∧
    _next_id (center s') = 3%Z ∧
    current_user (system s') = Some "dr.smith" ∧
    console s' = console s ++
      [ print_logged_in "dr.smith"; print_found 2; print_viewing 1;
        print_title "Patient Follow-up";
        print_content
          "Patient John Doe requires a follow-up consultation for recent test results.";
        print_timestamp t1; print_marked_read ].
Proof.
  unfold main. unfold_monad. unfold new_system.
  rewrite login_effect. cbn [truthy andb].
  rewrite !add_notification_effect. cbn.
  rewrite length_app. cbn [length]. rewrite Nat.add_1_r.
  match goal with |- context [(?h ++ [?a]) ++ [?b]] =>
    destruct (lookup_last_two h a b) as [Ha Hb];
    set (first := a) in *; set (second := b) in *
  end.
  match goal with |- context [check_notifications ?x] => set (s3 := x) end.
  assert (length (heap s3) = S (S (length (heap s)))) as Hlen.
  { cbn. rewrite !length_app. cbn. lia. }
  assert (heap_closed s3) as Hs3.
  { unfold heap_closed. rewrite Hlen. cbn. repeat constructor; lia. }
  rewrite (check_notifications_logged_in s3 eq_refl Hs3).
  assert (unread_in (heap s3) (stored s3) =
          [length (heap s); S (length (heap s))]) as ->.
  { unfold unread_in. change (stored s3) with [length (heap s); S (length (heap s))].
    rewrite filter_cons_True
      by (unfold read_at, s3; cbn [heap]; by rewrite Ha).
    by rewrite filter_cons_True
      by (unfold read_at, s3; cbn [heap]; by rewrite Hb). }
  unfold load. cbn. rewrite Ha. cbn.
  match goal with |- context [view_notification _ ?x] => set (s4 := x) end.
  assert (heap_closed s4) as Hs4 by exact Hs3.
  assert (first_with_id (heap s4) 1 (stored s4) = Some (length (heap s)))
    as Hfound.
  { unfold first_with_id.
    change (stored s4) with [length (heap s); S (length (heap s))].
    by rewrite filter_cons_True
      by (unfold id_at, s4; cbn [heap]; by rewrite Ha). }
  rewrite (view_notification_found 1 s4 _ first eq_refl Hs4 Hfound Ha).
  eexists. split; [reflexivity|]. cbn. split_and!; try done.
  - rewrite <- app_assoc. cbn [app].
    rewrite insert_app_r_alt, Nat.sub_diag by done. reflexivity.
  - by rewrite <- !app_assoc.
Qed.

(** X12: what [check_notifications] lists can be opened by its
    identifier, as [main] does with the first element.  In every state the
    interface can reach, logged in, viewing the identifier of a listed
    notification returns that very notification and leaves it read. *)
Theorem listed_notification_can_be_viewed
    (s : State) (l : list ref) (r : ref)
    (Hs : reachable s) (Hin : logged_in s = true)
    (Hl : fst <$> check_notifications s = Some l) (Hr : r ∈ l) :
  ∃ n s',
    heap s !! r = Some n ∧
    is_read n = false ∧
    view_notification (notification_id n) s = Some (Some r, s') ∧
    read_at (heap s') r = Some true.
Proof.
  pose proof (reachable_counter_inv s Hs) as Hinv.
  pose proof (counter_inv_heap_closed s Hinv) as Hclosed.
  rewrite (check_notifications_logged_in _ Hin Hclosed) in Hl.
  cbn in Hl. injection Hl as <-.
  apply list_elem_of_filter in Hr as [Hunread Hstored].
  apply list_elem_of_lookup in Hstored as [i Hi].
  pose proof (counter_inv_find s i r Hinv Hi) as Hfound.
  destruct (first_with_id_lookup _ _ _ Hfound) as (n & Hn & Hid & _).
  exists n. eexists. split; [done|]. split.
  { unfold read_at in Hunread. rewrite Hn in Hunread. cbn in Hunread. congruence. }
  rewrite Hid.
  split; [exact (view_notification_found _ _ _ _ Hin Hclosed Hfound Hn)|].
  cbn. by apply read_at_mark.
Qed.

Lemma listed_notification_can_be_viewed_sample :
  reachable sample ∧ logged_in sample = true ∧
  fst <$> check_notifications sample = Some [1] ∧
  ∃ n s',
    heap sample !! 1 = Some n ∧
    view_notification (notification_id n) sample = Some (Some 1, s') ∧
    read_at (heap s') 1 = Some true.
Proof.
  assert (reachable sample) as Hs
    by (eexists scenario, _; vm_compute; reflexivity).
  assert (logged_in sample = true) as Hin by (vm_compute; reflexivity).
  assert (fst <$> check_notifications sample = Some [1]) as Hl
    by (vm_compute; reflexivity).
  split; [exact Hs|]. split; [exact Hin|]. split; [exact Hl|].
  destruct (listed_notification_can_be_viewed sample [1] 1 Hs Hin Hl)
    as (n & s' & Hn & _ & Hview & Hread).
  { by left. }
  exists n, s'. split; [exact Hn|]. split; [exact Hview|exact Hread].
Defined.
